(** * Retry policies ([src/01_retry.js]): model, primitives, combinators, dry run

    A shallow embedding of the retry-policy module and the proofs of the
    properties its specification states.

    Numbers.  The source computes on JavaScript numbers.  Delays are modelled
    as integers [Z] (negative delays included: the code does not reject them);
    [iterNumber] is modelled as a natural number [N], the counter of the data
    model, which starts at 0 in [startStatus] and only ever grows by one.
    [Math.max], [Math.min], [>=] and [+] are the exact integer operations,
    which is what they are on integer-valued doubles.  [undefined] as a delay
    is [None].

    The one operation of the module that leaves the integers is the product
    [delay * Math.pow(2, iterNumber)] of [exponentialBackoff]: from
    [iterNumber] 1024 on the power is [Infinity], and the product is
    [Infinity] or [NaN].  [exponentialBackoff_double] models that product on
    doubles, overflow included; the policy [exponentialBackoff], which the
    combinators compose, is the exact product, and the two agree wherever the
    double is finite ([exponentialBackoff_finite_agrees]). *)

From Stdlib Require Import ZArith NArith Lia.
From stdpp Require Import base option list.

Local Open Scope Z_scope.

(** ** The model *)

Record RetryStatus : Type := mkStatus {
  iterNumber : N;
  previousDelay : option Z
}.

(** A policy is a function of the status; [None] is [undefined]: stop. *)
Definition RetryPolicy : Type := RetryStatus -> option Z.

Definition startStatus : RetryStatus :=
  {| iterNumber := 0; previousDelay := None |}.

(** ** Primitives *)

Definition constantDelay (delay : Z) : RetryPolicy :=
  fun _ => Some delay.

Definition limitRetries (i : Z) : RetryPolicy :=
  fun status =>
    if (Z.of_N (iterNumber status) >=? i) then None else Some 0.

(** The exact product.  It is the code's result wherever that result is a
    finite double; what the code yields past that range is in
    [exponentialBackoff_double] below. *)
Definition exponentialBackoff (delay : Z) : RetryPolicy :=
  fun status => Some (delay * 2 ^ Z.of_N (iterNumber status)).

(** ** Combinators *)

Definition capDelay (maxDelay : Z) (policy : RetryPolicy) : RetryPolicy :=
  fun status =>
    let delay := policy status in
    match delay with
    | None => None
    | Some d => Some (Z.min maxDelay d)
    end.

Definition concat (second first : RetryPolicy) : RetryPolicy :=
  fun status =>
    let delay1 := first status in
    let delay2 := second status in
    match delay1, delay2 with
    | Some d1, Some d2 => Some (Z.max d1 d2)
    | _, _ => None
    end.

(** ** Applying a policy *)

Definition applyPolicy (policy : RetryPolicy) (status : RetryStatus)
  : RetryStatus :=
  {| iterNumber := iterNumber status + 1;
     previousDelay := policy status |}.

(** What a run of [dryRun] can end in.  The [while] loop need not terminate,
    so the loop is run with a bound on the number of times its body executes;
    [OutOfFuel] says the bound was reached with the loop condition still true.
    [TypeError] is what [apply(undefined)] would throw, were
    [out[out.length - 1]] ever out of range. *)
Inductive outcome (A : Type) : Type :=
  | Returned (a : A)
  | TypeError
  | OutOfFuel.
Arguments Returned {A} a.
Arguments TypeError {A}.
Arguments OutOfFuel {A}.

(** The loop [while (status.previousDelay !== undefined)
                 out.push((status = apply(out[out.length - 1])))]
    on the two variables [status] and [out]. *)
Fixpoint dryRun_while (fuel : nat) (apply : RetryStatus -> RetryStatus)
    (status : RetryStatus) (out : list RetryStatus)
  : outcome (list RetryStatus) :=
  match previousDelay status with
  | None => Returned out
  | Some _ =>
      match fuel with
      | O => OutOfFuel
      | S fuel' =>
          match out !! (length out - 1)%nat with
          | None => TypeError
          | Some prev =>
              let status' := apply prev in
              dryRun_while fuel' apply status' (out ++ [status'])
          end
      end
  end.

Definition dryRun (fuel : nat) (policy : RetryPolicy)
  : outcome (list RetryStatus) :=
  let apply := applyPolicy policy in
  let status := apply startStatus in
  let out := [status] in
  dryRun_while fuel apply status out.

(** [pipe] of fp-ts/function at four arguments: left-to-right application. *)
Definition pipe {A B C D : Type} (a : A) (ab : A -> B) (bc : B -> C)
    (cd : C -> D) : D :=
  cd (bc (ab a)).

Definition myPolicy : RetryPolicy :=
  pipe (constantDelay 300)
       (concat (exponentialBackoff 200))
       (concat (limitRetries 5))
       (capDelay 2000).

(** ** Vocabulary of the simulation *)

(** The status after [k] steps of the simulation from [startStatus]. *)
Definition statusAt (policy : RetryPolicy) (k : nat) : RetryStatus :=
  Nat.iter k (applyPolicy policy) startStatus.

(** The [k]-th decision of the policy along the simulation (from 0). *)
Definition decision (policy : RetryPolicy) (k : nat) : option Z :=
  policy (statusAt policy k).

(** Decision [k] is the first one that says stop. *)
Definition first_stop (policy : RetryPolicy) (k : nat) : Prop :=
  decision policy k = None /\
  forall j, (j < k)%nat -> decision policy j <> None.

Definition first_stopb (policy : RetryPolicy) (k : nat) : bool :=
  forallb (fun j => bool_decide (is_Some (decision policy j))) (seq 0 k)
  && bool_decide (decision policy k = None).

(** The simulation terminates: some bound on the loop lets [dryRun] return. *)
Definition terminates (policy : RetryPolicy) : Prop :=
  exists fuel out, dryRun fuel policy = Returned out.

(** [s; apply s; ...; apply^k s]. *)
Fixpoint trace (apply : RetryStatus -> RetryStatus) (k : nat)
    (s : RetryStatus) : list RetryStatus :=
  s :: match k with
       | O => []
       | S k' => trace apply k' (apply s)
       end.

(** The statuses of a simulation that makes [k + 1] steps. *)
Definition simulated (policy : RetryPolicy) (k : nat) : list RetryStatus :=
  trace (applyPolicy policy) k (applyPolicy policy startStatus).

(** ** The product of [exponentialBackoff] on doubles *)

(** The values that [delay * Math.pow(2, n)] takes for an integer-valued
    double [delay] and a counter [n]: an integer, an infinity, or NaN. *)
Inductive number : Type :=
  | Finite (z : Z)
  | Infinity
  | NegInfinity
  | NaN.

(** Every finite double is below [2 ^ 1024] in magnitude. *)
Definition double_limit : Z := 2 ^ 1024.

(** The double that an exact result [z] rounds to, for [z] the product of an
    integer-valued double and a power of two: such a [z] is a double itself
    when its magnitude is below the limit, and rounds to an infinity from
    the limit on. *)
Definition double_round (z : Z) : number :=
  if double_limit <=? z then Infinity
  else if z <=? - double_limit then NegInfinity
  else Finite z.

(** [Math.pow(2, n)] on a counter [n]: exact up to [2 ^ 1023], [Infinity]
    from [n = 1024] on. *)
Definition Math_pow_2 (n : N) : number :=
  if (n <? 1024)%N then Finite (2 ^ Z.of_N n) else Infinity.

(** An infinity times the finite [x]: NaN for 0, else by the sign of [x]. *)
Definition Number_scale (x : Z) (same opposite : number) : number :=
  if x =? 0 then NaN else if 0 <? x then same else opposite.

(** The product [a * b] of two numbers. *)
Definition Number_mul (a b : number) : number :=
  match a, b with
  | NaN, _ | _, NaN => NaN
  | Finite x, Finite y => double_round (x * y)
  | Finite x, Infinity | Infinity, Finite x =>
      Number_scale x Infinity NegInfinity
  | Finite x, NegInfinity | NegInfinity, Finite x =>
      Number_scale x NegInfinity Infinity
  | Infinity, Infinity | NegInfinity, NegInfinity => Infinity
  | Infinity, NegInfinity | NegInfinity, Infinity => NegInfinity
  end.

(** The comparison [a <= b] of two numbers; false whenever one is NaN. *)
Definition Number_le (a b : number) : bool :=
  match a, b with
  | NaN, _ | _, NaN => false
  | NegInfinity, _ | _, Infinity => true
  | Finite x, Finite y => x <=? y
  | Infinity, _ | _, NegInfinity => false
  end.

(** [exponentialBackoff] as the code computes it, on doubles:
    [delay * Math.pow(2, status.iterNumber)], never [undefined]. *)
Definition exponentialBackoff_double (delay : Z) (status : RetryStatus)
  : option number :=
  Some (Number_mul (Finite delay) (Math_pow_2 (iterNumber status))).

(** ** Vocabulary of the further properties *)

(** A policy that reads nothing of the status but [iterNumber]. *)
Definition memoryless (policy : RetryPolicy) : Prop :=
  forall s s', iterNumber s = iterNumber s' -> policy s = policy s'.

(** A status with its delay, when it has one, capped at [maxDelay]. *)
Definition capStatus (maxDelay : Z) (s : RetryStatus) : RetryStatus :=
  {| iterNumber := iterNumber s;
     previousDelay := Z.min maxDelay <$> previousDelay s |}.

Definition outcome_map {A B : Type} (f : A -> B) (o : outcome A)
  : outcome B :=
  match o with
  | Returned a => Returned (f a)
  | TypeError => TypeError
  | OutOfFuel => OutOfFuel
  end.

(** The statuses of [n] immediate retries followed by the stop. *)
Definition immediateRetries (n : nat) : list RetryStatus :=
  ((fun j => mkStatus (N.of_nat (S j)) (Some 0)) <$> seq 0 n)
  ++ [mkStatus (N.of_nat (S n)) None].

(** * Proofs *)

(** ** The loop *)

Section Loop.
Variable apply : RetryStatus -> RetryStatus.

Lemma lookup_last_snoc (pre : list RetryStatus) (s : RetryStatus) :
  (pre ++ [s]) !! (length (pre ++ [s]) - 1)%nat = Some s.
Proof.
  rewrite length_app; simpl.
  replace (length pre + 1 - 1)%nat with (length pre + 0)%nat by lia.
  rewrite lookup_app_r by lia.
  replace (length pre + 0 - length pre)%nat with 0%nat by lia.
  reflexivity.
Qed.

Lemma trace_length k s : length (trace apply k s) = S k.
Proof.
  revert s; induction k as [|k IH]; intros s; simpl; [reflexivity|].
  f_equal. apply IH.
Qed.

Lemma trace_lookup k : forall s i,
  (i <= k)%nat -> trace apply k s !! i = Some (Nat.iter i apply s).
Proof.
  induction k as [|k IH]; intros s i Hi.
  - assert (i = 0%nat) as -> by lia. reflexivity.
  - destruct i as [|i]; [reflexivity|].
    cbn [trace lookup list_lookup].
    change (trace apply k (apply s) !! i = Some (Nat.iter (S i) apply s)).
    rewrite IH by lia. f_equal. symmetry. apply Nat.iter_succ_r.
Qed.

Lemma trace_snoc k : forall s,
  trace apply (S k) s = trace apply k s ++ [Nat.iter (S k) apply s].
Proof.
  induction k as [|k IH]; intros s; [reflexivity|].
  change (trace apply (S (S k)) s) with (s :: trace apply (S k) (apply s)).
  rewrite IH.
  change (trace apply (S k) s) with (s :: trace apply k (apply s)).
  rewrite <- (Nat.iter_succ_r (S k)). reflexivity.
Qed.

(** The loop entered with [out = pre ++ [status]] and stopping after
    exactly [k] executions of its body. *)
Lemma dryRun_while_stop k : forall fuel s pre,
  (forall j, (j < k)%nat -> previousDelay (Nat.iter j apply s) <> None) ->
  previousDelay (Nat.iter k apply s) = None ->
  dryRun_while fuel apply s (pre ++ [s]) =
  if decide (k <= fuel)%nat then Returned (pre ++ trace apply k s)
  else OutOfFuel.
Proof.
  induction k as [|k IH]; intros fuel s pre Hgo Hstop.
  - simpl in Hstop. destruct fuel; simpl; rewrite Hstop; reflexivity.
  - pose proof (Hgo 0%nat ltac:(lia)) as H0. simpl in H0.
    destruct (previousDelay s) as [d|] eqn:Hd; [clear H0|congruence].
    destruct fuel as [|fuel].
    + simpl. rewrite Hd. reflexivity.
    + cbn [dryRun_while]. rewrite Hd, lookup_last_snoc.
      cbv zeta. rewrite (IH fuel (apply s) (pre ++ [s])).
      * rewrite <- app_assoc.
        destruct (decide (k <= fuel)%nat), (decide (S k <= S fuel)%nat);
          try lia; reflexivity.
      * intros j Hj. rewrite <- Nat.iter_succ_r. apply Hgo. lia.
      * rewrite <- Nat.iter_succ_r. exact Hstop.
Qed.

(** The loop entered with [out = pre ++ [status]] never indexes [out] out
    of range, and when it returns it has stopped at a first [undefined]. *)
Lemma dryRun_while_inv fuel : forall s pre,
  match dryRun_while fuel apply s (pre ++ [s]) with
  | Returned out =>
      exists k, (k <= fuel)%nat /\
        (forall j, (j < k)%nat ->
                   previousDelay (Nat.iter j apply s) <> None) /\
        previousDelay (Nat.iter k apply s) = None /\
        out = pre ++ trace apply k s
  | TypeError => False
  | OutOfFuel =>
      forall j, (j <= fuel)%nat -> previousDelay (Nat.iter j apply s) <> None
  end.
Proof.
  induction fuel as [|fuel IH]; intros s pre.
  - simpl. destruct (previousDelay s) eqn:Hd.
    + intros j Hj. assert (j = 0%nat) as -> by lia. simpl. congruence.
    + exists 0%nat. repeat split; [lia | intros; lia | exact Hd].
  - cbn [dryRun_while]. destruct (previousDelay s) eqn:Hd.
    + rewrite lookup_last_snoc. cbv zeta.
      specialize (IH (apply s) (pre ++ [s])).
      destruct (dryRun_while fuel apply (apply s) ((pre ++ [s]) ++ [apply s]))
        as [out| |]; [|exact IH|].
      * destruct IH as (k & Hk & Hgo & Hstop & ->).
        exists (S k). split; [lia|]. split; [|split].
        -- intros [|j] Hj; [simpl; congruence|].
           rewrite Nat.iter_succ_r. apply Hgo. lia.
        -- rewrite Nat.iter_succ_r. exact Hstop.
        -- rewrite <- app_assoc. reflexivity.
      * intros [|j] Hj; [simpl; congruence|].
        rewrite Nat.iter_succ_r. apply IH. lia.
    + exists 0%nat. repeat split; [lia | intros; lia | exact Hd].
Qed.
End Loop.

(** ** The simulation of a policy *)

Section Simulation.
Variable policy : RetryPolicy.

Lemma iter_applyPolicy j s :
  Nat.iter j (applyPolicy policy) (applyPolicy policy s) =
  Nat.iter (S j) (applyPolicy policy) s.
Proof. symmetry. apply Nat.iter_succ_r. Qed.

Lemma iterNumber_iter k s :
  iterNumber (Nat.iter k (applyPolicy policy) s)
  = (iterNumber s + N.of_nat k)%N.
Proof.
  induction k as [|k IH]; [simpl; lia|].
  change (Nat.iter (S k) (applyPolicy policy) s)
    with (applyPolicy policy (Nat.iter k (applyPolicy policy) s)).
  cbn [applyPolicy iterNumber]. rewrite IH. lia.
Qed.

Lemma iterNumber_statusAt k : iterNumber (statusAt policy k) = N.of_nat k.
Proof. unfold statusAt. rewrite iterNumber_iter. reflexivity. Qed.

Lemma previousDelay_statusAt k :
  previousDelay (statusAt policy (S k)) = decision policy k.
Proof. reflexivity. Qed.

Lemma first_stop_iter k :
  first_stop policy k <->
  (forall j, (j < k)%nat ->
     previousDelay
       (Nat.iter j (applyPolicy policy) (applyPolicy policy startStatus))
     <> None) /\
  previousDelay
    (Nat.iter k (applyPolicy policy) (applyPolicy policy startStatus)) = None.
Proof.
  unfold first_stop, decision, statusAt.
  split; intros [H1 H2]; split.
  - intros j Hj. rewrite iter_applyPolicy. apply (H2 j Hj).
  - rewrite iter_applyPolicy. exact H1.
  - rewrite iter_applyPolicy in H2. exact H2.
  - intros j Hj. specialize (H1 j Hj). rewrite iter_applyPolicy in H1.
    exact H1.
Qed.

Lemma first_stopb_spec k :
  first_stopb policy k = true <-> first_stop policy k.
Proof.
  unfold first_stopb, first_stop.
  rewrite andb_true_iff, forallb_forall, bool_decide_eq_true.
  split; intros [H1 H2]; split; try assumption.
  - intros j Hj. specialize (H1 j).
    rewrite bool_decide_eq_true in H1.
    destruct H1 as [d Hd]; [apply in_seq; lia|]. congruence.
  - intros j Hj%in_seq. apply bool_decide_eq_true.
    destruct (decision policy j) eqn:E; [eauto|].
    exfalso. apply (H2 j); [lia|exact E].
Qed.

Lemma first_stop_unique k k' :
  first_stop policy k -> first_stop policy k' -> k = k'.
Proof.
  intros [Hk Hlt] [Hk' Hlt'].
  destruct (lt_eq_lt_dec k k') as [[Hc| ->]|Hc]; [|reflexivity|].
  - destruct (Hlt' k Hc Hk).
  - destruct (Hlt k' Hc Hk').
Qed.

Lemma stop_before_dec n :
  (forall j, (j < n)%nat -> decision policy j <> None) \/
  (exists j, (j < n)%nat /\ decision policy j = None).
Proof.
  induction n as [|n [IH|(j & Hj & Hd)]].
  - left. intros j Hj. lia.
  - destruct (decision policy n) eqn:E.
    + left. intros j Hj.
      destruct (decide (j = n)) as [->|Hne]; [congruence|].
      apply IH. lia.
    + right. exists n. split; [lia|exact E].
  - right. exists j. split; [lia|exact Hd].
Qed.

(** A policy that says stop at some decision has a first such decision. *)
Lemma first_stop_least n :
  decision policy n = None ->
  exists k, (k <= n)%nat /\ first_stop policy k.
Proof.
  induction n as [n IH] using lt_wf_ind. intros Hn.
  destruct (stop_before_dec n) as [Hgo|(j & Hj & Hd)].
  - exists n. split; [lia|]. split; assumption.
  - destruct (IH j Hj Hd) as (k & Hk & Hfs).
    exists k. split; [lia|exact Hfs].
Qed.

(** [dryRun] on a policy whose first stop is decision [k]: the loop body
    runs [k] times. *)
Lemma dryRun_first_stop k :
  first_stop policy k ->
  forall fuel,
    dryRun fuel policy =
    if decide (k <= fuel)%nat then Returned (simulated policy k)
    else OutOfFuel.
Proof.
  intros [Hgo Hstop]%first_stop_iter fuel.
  unfold dryRun. cbv zeta.
  exact (dryRun_while_stop (applyPolicy policy) k fuel
           (applyPolicy policy startStatus) [] Hgo Hstop).
Qed.

Lemma dryRun_returned fuel out :
  dryRun fuel policy = Returned out ->
  exists k, (k <= fuel)%nat /\ first_stop policy k /\
            out = simulated policy k.
Proof.
  intros Hrun.
  pose proof (dryRun_while_inv (applyPolicy policy) fuel
                (applyPolicy policy startStatus) []) as Hinv.
  unfold dryRun in Hrun. cbv zeta in Hrun. simpl app in Hinv.
  rewrite Hrun in Hinv. destruct Hinv as (k & Hk & Hgo & Hstop & ->).
  exists k. split; [exact Hk|]. split; [|reflexivity].
  apply first_stop_iter. split; assumption.
Qed.

Lemma dryRun_no_TypeError fuel : dryRun fuel policy <> TypeError.
Proof.
  intros Hrun.
  pose proof (dryRun_while_inv (applyPolicy policy) fuel
                (applyPolicy policy startStatus) []) as Hinv.
  unfold dryRun in Hrun. cbv zeta in Hrun. simpl app in Hinv.
  rewrite Hrun in Hinv. exact Hinv.
Qed.

Lemma terminates_iff_stops :
  terminates policy <-> exists n, decision policy n = None.
Proof.
  split.
  - intros (fuel & out & Hrun).
    destruct (dryRun_returned fuel out Hrun) as (k & _ & [Hk _] & _).
    exists k. exact Hk.
  - intros (n & Hn). destruct (first_stop_least n Hn) as (k & _ & Hk).
    exists k, (simulated policy k). rewrite (dryRun_first_stop k Hk).
    destruct (decide (k <= k)%nat); [reflexivity|lia].
Qed.

Lemma simulated_length k : length (simulated policy k) = S k.
Proof. apply trace_length. Qed.

Lemma simulated_lookup k i :
  (i <= k)%nat -> simulated policy k !! i = Some (statusAt policy (S i)).
Proof.
  intros Hi. unfold simulated. rewrite trace_lookup by exact Hi.
  rewrite iter_applyPolicy. reflexivity.
Qed.

Lemma simulated_lookup_inv k i s :
  simulated policy k !! i = Some s ->
  (i <= k)%nat /\ s = statusAt policy (S i).
Proof.
  intros Hl. assert (i <= k)%nat as Hi.
  { apply lookup_lt_Some in Hl. rewrite simulated_length in Hl. lia. }
  split; [exact Hi|]. rewrite simulated_lookup in Hl by exact Hi.
  congruence.
Qed.

Lemma simulated_iterNumbers k :
  iterNumber <$> simulated policy k = N.of_nat <$> seq 1 (S k).
Proof.
  apply list_eq. intros i. rewrite !list_lookup_fmap.
  destruct (decide (i <= k)%nat) as [Hi|Hi].
  - rewrite simulated_lookup by exact Hi.
    rewrite lookup_seq_lt by lia. cbn [fmap option_fmap option_map].
    f_equal. apply iterNumber_statusAt.
  - rewrite (lookup_ge_None_2 (simulated policy k))
      by (rewrite simulated_length; lia).
    rewrite (lookup_ge_None_2 (seq 1 (S k))) by (rewrite length_seq; lia).
    reflexivity.
Qed.

Lemma simulated_last k :
  first_stop policy k ->
  last (simulated policy k) = Some (mkStatus (N.of_nat (S k)) None).
Proof.
  intros [Hk _]. rewrite last_lookup, simulated_length. simpl pred.
  rewrite simulated_lookup by lia. f_equal.
  pose proof (iterNumber_statusAt (S k)) as Hn.
  pose proof (previousDelay_statusAt k) as Hd. rewrite Hk in Hd.
  destruct (statusAt policy (S k)) as [n d]. simpl in *. congruence.
Qed.
End Simulation.

(** ** Primitives and combinators *)

(** C7. [limitRetries n] yields the delay 0 on a status whose [iterNumber] is
    below [n] and says stop ([None]) on a status whose [iterNumber] is at
    least [n], for every integer [n]: a cutoff on the count, no delay of
    its own. *)
Theorem limitRetries_cutoff (n : Z) (status : RetryStatus) :
  (Z.of_N (iterNumber status) < n -> limitRetries n status = Some 0) /\
  (Z.of_N (iterNumber status) >= n -> limitRetries n status = None).
Proof.
  unfold limitRetries.
  destruct (Z.geb_spec (Z.of_N (iterNumber status)) n) as [Hge|Hlt];
    split; intros H; try reflexivity; lia.
Qed.

Lemma limitRetries_cutoff_witness :
  limitRetries 5 (mkStatus 4 (Some 1600)) = Some 0 /\
  limitRetries 5 (mkStatus 5 (Some 2000)) = None.
Proof.
  split.
  - apply (proj1 (limitRetries_cutoff 5 (mkStatus 4 (Some 1600)))).
    simpl. lia.
  - apply (proj2 (limitRetries_cutoff 5 (mkStatus 5 (Some 2000)))).
    simpl. lia.
Defined.

Lemma double_limit_pos : 0 < double_limit.
Proof. unfold double_limit. apply Z.pow_pos_nonneg; lia. Qed.

(** The product of [exponentialBackoff_double] for a base delay [d >= 0],
    case by case. *)
Lemma exponentialBackoff_double_cases (d : Z) (status : RetryStatus) :
  0 <= d ->
  exponentialBackoff_double d status =
  Some (if (iterNumber status <? 1024)%N
        then if double_limit <=? d * 2 ^ Z.of_N (iterNumber status)
             then Infinity
             else Finite (d * 2 ^ Z.of_N (iterNumber status))
        else if d =? 0 then NaN else Infinity).
Proof.
  intros Hd. pose proof double_limit_pos as HL.
  unfold exponentialBackoff_double, Math_pow_2. f_equal.
  destruct (iterNumber status <? 1024)%N; cbn [Number_mul].
  - unfold double_round.
    assert (0 <= d * 2 ^ Z.of_N (iterNumber status)) as Hp
      by (apply Z.mul_nonneg_nonneg; [exact Hd|apply Z.pow_nonneg; lia]).
    destruct (Z.leb_spec double_limit (d * 2 ^ Z.of_N (iterNumber status)));
      [reflexivity|].
    destruct (Z.leb_spec (d * 2 ^ Z.of_N (iterNumber status)) (- double_limit));
      [lia|reflexivity].
  - unfold Number_scale. destruct (Z.eqb_spec d 0); [reflexivity|].
    destruct (Z.ltb_spec 0 d); [reflexivity|lia].
Qed.

(** Wherever the double product is finite, the exact product of the policy
    [exponentialBackoff] is that double. *)
Lemma exponentialBackoff_finite_agrees (d z : Z) (status : RetryStatus) :
  exponentialBackoff_double d status = Some (Finite z) ->
  exponentialBackoff d status = Some z.
Proof.
  unfold exponentialBackoff_double, exponentialBackoff, Math_pow_2.
  destruct (iterNumber status <? 1024)%N; cbn [Number_mul].
  - unfold double_round.
    destruct (double_limit <=? d * 2 ^ Z.of_N (iterNumber status));
      [discriminate|].
    destruct (d * 2 ^ Z.of_N (iterNumber status) <=? - double_limit);
      [discriminate|].
    intros [= <-]. reflexivity.
  - unfold Number_scale. destruct (d =? 0); [discriminate|].
    destruct (0 <? d); discriminate.
Qed.

(** C8, as the code has it.  For [d >= 0], [exponentialBackoff d] yields
    exactly [d * 2 ^ iterNumber] on every status with [iterNumber] below
    1024 and that product below [2 ^ 1024], the range of the finite
    doubles.  Beyond this range it yields [Infinity] when [d > 0], and [NaN]
    when [d = 0] and [iterNumber] is at least 1024.  On every status it
    yields a value: it never says stop. *)
Theorem exponentialBackoff_double_value (d : Z) (status : RetryStatus) :
  0 <= d ->
  ((iterNumber status < 1024)%N ->
   d * 2 ^ Z.of_N (iterNumber status) < double_limit ->
   exponentialBackoff_double d status =
   Some (Finite (d * 2 ^ Z.of_N (iterNumber status)))) /\
  (0 < d ->
   (1024 <= iterNumber status)%N \/
   double_limit <= d * 2 ^ Z.of_N (iterNumber status) ->
   exponentialBackoff_double d status = Some Infinity) /\
  (d = 0 -> (1024 <= iterNumber status)%N ->
   exponentialBackoff_double d status = Some NaN) /\
  exponentialBackoff_double d status <> None.
Proof.
  intros Hd. rewrite (exponentialBackoff_double_cases d status Hd).
  destruct (N.ltb_spec (iterNumber status) 1024) as [Hn|Hn];
    destruct (Z.leb_spec double_limit (d * 2 ^ Z.of_N (iterNumber status)))
      as [Hp|Hp];
    destruct (Z.eqb_spec d 0) as [Hz|Hz];
    repeat split; intros; try reflexivity; try discriminate; try lia;
    match goal with H : _ \/ _ |- _ => destruct H; lia end.
Qed.

Lemma exponentialBackoff_double_value_witness :
  exponentialBackoff_double 200 (mkStatus 4 (Some 1600))
    = Some (Finite 3200) /\
  exponentialBackoff_double 200 (mkStatus 1024 (Some 0)) = Some Infinity /\
  exponentialBackoff_double 0 (mkStatus 1024 (Some 0)) = Some NaN.
Proof.
  split; [|split].
  - apply (proj1 (exponentialBackoff_double_value 200
                    (mkStatus 4 (Some 1600)) ltac:(lia)));
      vm_compute; reflexivity.
  - apply (proj1 (proj2 (exponentialBackoff_double_value 200
                           (mkStatus 1024 (Some 0)) ltac:(lia)))).
    + lia.
    + left. vm_compute. discriminate.
  - apply (proj1 (proj2 (proj2 (exponentialBackoff_double_value 0
                                   (mkStatus 1024 (Some 0)) ltac:(lia))))).
    + reflexivity.
    + vm_compute. discriminate.
Defined.

(** C8, as stated, fails on the code.  The status with [iterNumber] 1024 is
    the one an ordinary dry run reaches after 1024 immediate retries; there
    [Math.pow(2, 1024)] is [Infinity], so the base delay 1 yields [Infinity]
    and the base delay 0 yields [NaN], neither of them [d * 2 ^ 1024]. *)
Lemma exponentialBackoff_double_overflow :
  statusAt (limitRetries 1030) 1024 = mkStatus 1024 (Some 0) /\
  exponentialBackoff_double 1 (mkStatus 1024 (Some 0)) = Some Infinity /\
  exponentialBackoff_double 1 (mkStatus 1024 (Some 0))
    <> Some (Finite (1 * 2 ^ Z.of_N (iterNumber (mkStatus 1024 (Some 0))))) /\
  exponentialBackoff_double 0 (mkStatus 1024 (Some 0)) = Some NaN /\
  exponentialBackoff_double 0 (mkStatus 1024 (Some 0))
    <> Some (Finite (0 * 2 ^ Z.of_N (iterNumber (mkStatus 1024 (Some 0))))).
Proof.
  split; [vm_compute; reflexivity|].
  split; [vm_compute; reflexivity|].
  split; [vm_compute; discriminate|].
  split; [vm_compute; reflexivity|].
  vm_compute; discriminate.
Qed.

(** C4. [capDelay m p] says stop exactly when [p] says stop; when [p] yields
    a delay [d] it yields [min m d].  The cap never turns a stop into a
    delay. *)
Theorem capDelay_min (m : Z) (p : RetryPolicy) (s : RetryStatus) :
  (capDelay m p s = None <-> p s = None) /\
  (forall d, p s = Some d -> capDelay m p s = Some (Z.min m d)).
Proof.
  unfold capDelay. cbv zeta. destruct (p s) as [d|]; split.
  - split; discriminate.
  - intros d' [= ->]. reflexivity.
  - split; reflexivity.
  - intros d' [=].
Qed.

Lemma capDelay_min_witness :
  capDelay 2000 (exponentialBackoff 200) (mkStatus 4 (Some 1600)) = Some 2000
  /\ capDelay 2000 (limitRetries 5) (mkStatus 5 (Some 2000)) = None.
Proof.
  split.
  - apply (proj2 (capDelay_min 2000 (exponentialBackoff 200)
                    (mkStatus 4 (Some 1600))) 3200).
    reflexivity.
  - apply (proj1 (capDelay_min 2000 (limitRetries 5)
                    (mkStatus 5 (Some 2000)))).
    reflexivity.
Defined.

(** C9. [capDelay m] is idempotent: capping twice with the same bound is
    capping once, on every policy and status. *)
Theorem capDelay_idempotent (m : Z) (p : RetryPolicy) (s : RetryStatus) :
  capDelay m (capDelay m p) s = capDelay m p s.
Proof.
  unfold capDelay. cbv zeta. destruct (p s) as [d|]; [|reflexivity].
  f_equal. lia.
Qed.

(** C2. [concat second first] on a status: when both policies yield a delay
    the result is the maximum of the two; when either one says stop the
    result is stop. *)
Theorem concat_max_or_stop (first second : RetryPolicy) (status : RetryStatus) :
  (forall d1 d2, first status = Some d1 -> second status = Some d2 ->
     concat second first status = Some (Z.max d1 d2)) /\
  (first status = None \/ second status = None ->
     concat second first status = None).
Proof.
  unfold concat. cbv zeta. split.
  - intros d1 d2 -> ->. reflexivity.
  - intros [-> | ->]; [reflexivity|]. destruct (first status); reflexivity.
Qed.

Lemma concat_max_or_stop_witness :
  concat (exponentialBackoff 200) (constantDelay 300) (mkStatus 1 (Some 300))
    = Some 400 /\
  concat (limitRetries 0) (constantDelay 300) startStatus = None.
Proof.
  split.
  - apply (proj1 (concat_max_or_stop (constantDelay 300)
                    (exponentialBackoff 200) (mkStatus 1 (Some 300))) 300 400);
      reflexivity.
  - apply (proj2 (concat_max_or_stop (constantDelay 300) (limitRetries 0)
                    startStatus)).
    right. reflexivity.
Defined.

(** C3. [concat] is associative and commutative on every status: both
    groupings of three policies decide alike, both orders of two policies
    decide alike, the merge says stop exactly when one side does, and when
    both sides continue the delay is the maximum in either order. *)
Theorem concat_assoc_comm (a b c : RetryPolicy) (s : RetryStatus) :
  concat c (concat b a) s = concat (concat c b) a s /\
  concat b a s = concat a b s /\
  (concat b a s = None <-> a s = None \/ b s = None) /\
  (forall d1 d2, a s = Some d1 -> b s = Some d2 ->
     concat b a s = Some (Z.max d1 d2) /\
     concat a b s = Some (Z.max d1 d2)).
Proof.
  unfold concat. cbv zeta.
  destruct (a s) as [x|], (b s) as [y|], (c s) as [z|];
    repeat split; intros; simplify_eq;
    try reflexivity; try discriminate; try (f_equal; lia); auto;
    match goal with H : _ \/ _ |- _ => destruct H; discriminate end.
Qed.

Lemma concat_assoc_comm_witness :
  concat (constantDelay 300) (exponentialBackoff 200) (mkStatus 2 (Some 400))
    = Some 800 /\
  concat (exponentialBackoff 200) (constantDelay 300) (mkStatus 2 (Some 400))
    = Some 800.
Proof.
  pose proof (concat_assoc_comm (exponentialBackoff 200) (constantDelay 300)
                (limitRetries 5) (mkStatus 2 (Some 400))) as (_ & _ & _ & H).
  destruct (H 800 300 eq_refl eq_refl) as [H1 H2].
  split; [exact H1 | exact H2].
Defined.

(** ** Applying a policy and the dry run *)

(** C6. [applyPolicy policy s] is the status whose [iterNumber] is one more
    than that of [s] and whose [previousDelay] is the decision [policy s]
    ([s] itself is a value, read and not changed).  Hence along any
    simulation each step increases [iterNumber] by exactly 1, and in the
    sequence [dryRun] returns consecutive statuses differ by 1 and
    [iterNumber] never decreases. *)
Theorem applyPolicy_increments (policy : RetryPolicy) (s : RetryStatus) :
  applyPolicy policy s = mkStatus (iterNumber s + 1) (policy s) /\
  (forall k,
     iterNumber (Nat.iter (S k) (applyPolicy policy) s) =
     (iterNumber (Nat.iter k (applyPolicy policy) s) + 1)%N) /\
  (forall fuel out, dryRun fuel policy = Returned out ->
     (forall i x y, out !! i = Some x -> out !! S i = Some y ->
        iterNumber y = (iterNumber x + 1)%N) /\
     (forall i j x y, (i <= j)%nat -> out !! i = Some x -> out !! j = Some y ->
        (iterNumber x <= iterNumber y)%N)).
Proof.
  split; [reflexivity|]. split; [intros k; reflexivity|].
  intros fuel out (k & _ & _ & ->)%dryRun_returned. split.
  - intros i x y [_ ->]%simulated_lookup_inv [_ ->]%simulated_lookup_inv.
    rewrite !iterNumber_statusAt. lia.
  - intros i j x y Hij [_ ->]%simulated_lookup_inv [_ ->]%simulated_lookup_inv.
    rewrite !iterNumber_statusAt. lia.
Qed.

Lemma applyPolicy_increments_witness :
  iterNumber (mkStatus 2 (Some 400)) = N.succ (iterNumber (mkStatus 1 (Some 300)))
  /\ N.le (iterNumber (mkStatus 2 (Some 400))) (iterNumber (mkStatus 6 None)).
Proof.
  pose proof (applyPolicy_increments myPolicy startStatus) as (_ & _ & H).
  destruct (H 5%nat
              [ mkStatus 1 (Some 300); mkStatus 2 (Some 400);
                mkStatus 3 (Some 800); mkStatus 4 (Some 1600);
                mkStatus 5 (Some 2000); mkStatus 6 None ] eq_refl)
    as [Hstep Hmono].
  split.
  - rewrite <- N.add_1_r. exact (Hstep 0%nat _ _ eq_refl eq_refl).
  - apply (Hmono 1%nat 5%nat); [lia | reflexivity | reflexivity].
Defined.

(** C5. For a policy whose simulation terminates, with [k] its first
    decision to stop: [dryRun] returns, as soon as the loop is allowed [k]
    rounds, one and the same sequence; its [iterNumber]s are 1, 2, ...,
    [k + 1] in this order, its length is [k + 1] (the decisions up to and
    including the first stop), and its last element is the terminal status,
    [previousDelay] undefined. *)
Theorem dryRun_sequence (policy : RetryPolicy) :
  terminates policy ->
  exists k out,
    first_stop policy k /\
    (forall fuel,
       dryRun fuel policy =
       if decide (k <= fuel)%nat then Returned out else OutOfFuel) /\
    iterNumber <$> out = N.of_nat <$> seq 1 (S k) /\
    length out = S k /\
    last out = Some (mkStatus (N.of_nat (S k)) None).
Proof.
  intros (n & Hn)%terminates_iff_stops.
  destruct (first_stop_least policy n Hn) as (k & _ & Hk).
  exists k, (simulated policy k). split; [exact Hk|].
  split; [apply dryRun_first_stop, Hk|].
  split; [apply simulated_iterNumbers|].
  split; [apply simulated_length|].
  apply simulated_last, Hk.
Qed.

Lemma dryRun_sequence_witness :
  terminates myPolicy /\
  exists k out,
    first_stop myPolicy k /\
    (forall fuel,
       dryRun fuel myPolicy =
       if decide (k <= fuel)%nat then Returned out else OutOfFuel) /\
    iterNumber <$> out = N.of_nat <$> seq 1 (S k) /\
    length out = S k /\
    last out = Some (mkStatus (N.of_nat (S k)) None).
Proof.
  assert (terminates myPolicy) as Hterm.
  { exists 5%nat. eexists. vm_compute. reflexivity. }
  split; [exact Hterm|]. exact (dryRun_sequence myPolicy Hterm).
Defined.

(** C10. Whenever [dryRun] returns, the sequence has at least one element,
    and its last element is the only one whose [previousDelay] is undefined:
    every earlier one carries a delay.  On a policy that says stop on the
    initial status [dryRun] returns the one status
    [{iterNumber: 1, previousDelay: undefined}], whatever the bound on the
    loop. *)
Theorem dryRun_nonempty (policy : RetryPolicy) :
  (policy startStatus = None ->
   forall fuel, dryRun fuel policy = Returned [mkStatus 1 None]) /\
  (forall fuel out, dryRun fuel policy = Returned out ->
     (1 <= length out)%nat /\
     forall i s, out !! i = Some s ->
       (previousDelay s = None <-> i = (length out - 1)%nat)).
Proof.
  split.
  - intros H0 fuel. unfold dryRun, applyPolicy. cbv zeta. rewrite H0.
    destruct fuel; reflexivity.
  - intros fuel out (k & _ & [Hstop Hgo] & ->)%dryRun_returned.
    rewrite simulated_length. split; [lia|].
    intros i s [Hi ->]%simulated_lookup_inv.
    rewrite previousDelay_statusAt. split.
    + intros Hd. destruct (decide (i = k)) as [->|Hne]; [lia|].
      destruct (Hgo i ltac:(lia) Hd).
    + intros Heq. assert (i = k) as -> by lia. exact Hstop.
Qed.

Lemma dryRun_nonempty_witness :
  dryRun 0 (limitRetries 0) = Returned [mkStatus 1 None] /\
  Nat.le 1 (length [mkStatus 1 (Some 7); mkStatus 2 None]) /\
  (previousDelay (mkStatus 1 (Some 7)) = None <-> 0%nat = 1%nat) /\
  (previousDelay (mkStatus 2 None) = None <-> 1%nat = 1%nat).
Proof.
  split.
  - apply (proj1 (dryRun_nonempty (limitRetries 0))). reflexivity.
  - destruct (proj2 (dryRun_nonempty (concat (limitRetries 1) (constantDelay 7)))
                3%nat [mkStatus 1 (Some 7); mkStatus 2 None] eq_refl)
      as [Hlen Hlast].
    split; [exact Hlen|]. split.
    + exact (Hlast 0%nat _ eq_refl).
    + exact (Hlast 1%nat _ eq_refl).
Defined.

(** C1. The policy of the module, constant delay 300, merged with the
    exponential backoff from 200, merged with the limit of 5 retries, capped
    at 2000: [dryRun] returns exactly the six statuses (1, 300), (2, 400),
    (3, 800), (4, 1600), (5, 2000), (6, undefined), in this order, once the
    loop is allowed the five rounds it makes. *)
Theorem myPolicy_dryRun (fuel : nat) :
  dryRun fuel myPolicy =
  if decide (5 <= fuel)%nat then
    Returned [ mkStatus 1 (Some 300); mkStatus 2 (Some 400);
               mkStatus 3 (Some 800); mkStatus 4 (Some 1600);
               mkStatus 5 (Some 2000); mkStatus 6 None ]
  else OutOfFuel.
Proof.
  assert (first_stop myPolicy 5) as Hk
    by (apply first_stopb_spec; vm_compute; reflexivity).
  rewrite (dryRun_first_stop myPolicy 5 Hk). reflexivity.
Qed.

(** * Further properties of the module *)

(** ** Shared facts *)

Lemma statusAt_succ (policy : RetryPolicy) (k : nat) :
  statusAt policy (S k) = mkStatus (N.of_nat (S k)) (decision policy k).
Proof.
  change (statusAt policy (S k))
    with (applyPolicy policy (statusAt policy k)).
  unfold applyPolicy, decision. rewrite iterNumber_statusAt.
  f_equal. lia.
Qed.

Lemma dryRun_out_of_fuel (policy : RetryPolicy) (fuel : nat) :
  (forall j, (j <= fuel)%nat -> decision policy j <> None) ->
  dryRun fuel policy = OutOfFuel.
Proof.
  intros Hgo. destruct (dryRun fuel policy) as [out| |] eqn:Hrun.
  - destruct (dryRun_returned policy fuel out Hrun) as (k & Hk & [Hs _] & _).
    destruct (Hgo k Hk Hs).
  - destruct (dryRun_no_TypeError policy fuel Hrun).
  - reflexivity.
Qed.

(** Every run either returns the simulation up to the first stop or uses
    up its rounds on decisions that all continue. *)
Lemma dryRun_outcome (policy : RetryPolicy) (fuel : nat) :
  (exists k, (k <= fuel)%nat /\ first_stop policy k /\
             dryRun fuel policy = Returned (simulated policy k)) \/
  ((forall j, (j <= fuel)%nat -> decision policy j <> None) /\
   dryRun fuel policy = OutOfFuel).
Proof.
  destruct (stop_before_dec policy (S fuel)) as [Hgo|(j & Hj & Hd)].
  - right. assert (forall j, (j <= fuel)%nat -> decision policy j <> None)
      as Hgo' by (intros j Hj; apply Hgo; lia).
    split; [exact Hgo'|]. apply dryRun_out_of_fuel, Hgo'.
  - left. destruct (first_stop_least policy j Hd) as (k & Hk & Hfs).
    exists k. split; [lia|]. split; [exact Hfs|].
    rewrite (dryRun_first_stop policy k Hfs).
    destruct (decide (k <= fuel)%nat); [reflexivity|lia].
Qed.

Lemma memoryless_decision (p q : RetryPolicy) (k : nat) :
  memoryless p -> decision p k = p (statusAt q k).
Proof.
  intros Hp. apply Hp. rewrite !iterNumber_statusAt. reflexivity.
Qed.

Lemma memoryless_constantDelay d : memoryless (constantDelay d).
Proof. intros s s' _. reflexivity. Qed.

Lemma memoryless_limitRetries n : memoryless (limitRetries n).
Proof. intros s s' H. unfold limitRetries. rewrite H. reflexivity. Qed.

Lemma memoryless_exponentialBackoff d : memoryless (exponentialBackoff d).
Proof. intros s s' H. unfold exponentialBackoff. rewrite H. reflexivity. Qed.

Lemma memoryless_capDelay m p : memoryless p -> memoryless (capDelay m p).
Proof. intros Hp s s' H. unfold capDelay. rewrite (Hp s s' H). reflexivity. Qed.

Lemma memoryless_concat a b :
  memoryless a -> memoryless b -> memoryless (concat b a).
Proof.
  intros Ha Hb s s' H. unfold concat.
  rewrite (Ha s s' H), (Hb s s' H). reflexivity.
Qed.

Lemma decision_capDelay m p k :
  memoryless p -> decision (capDelay m p) k = Z.min m <$> decision p k.
Proof.
  intros Hp. rewrite (memoryless_decision p (capDelay m p) k Hp).
  unfold decision. generalize (statusAt (capDelay m p) k). intros s.
  unfold capDelay. cbv zeta. destruct (p s); reflexivity.
Qed.

Lemma decision_concat a b k :
  memoryless a -> memoryless b ->
  decision (concat b a) k =
  match decision a k, decision b k with
  | Some d1, Some d2 => Some (Z.max d1 d2)
  | _, _ => None
  end.
Proof.
  intros Ha Hb. rewrite (memoryless_decision a (concat b a) k Ha).
  rewrite (memoryless_decision b (concat b a) k Hb).
  reflexivity.
Qed.

Lemma decision_limitRetries n k :
  decision (limitRetries n) k =
  if decide (Z.to_nat n <= k)%nat then None else Some 0.
Proof.
  unfold decision, limitRetries. rewrite iterNumber_statusAt.
  destruct (Z.geb_spec (Z.of_N (N.of_nat k)) n),
    (decide (Z.to_nat n <= k)%nat); try reflexivity; lia.
Qed.

(** ** The dry run: what it never does, when it does not return *)

(** X1. [dryRun] never throws: [out[out.length - 1]] is in range each time
    the loop body reads it, so for every policy and every bound on the loop
    the run either returns or is still looping. *)
Theorem dryRun_never_throws (policy : RetryPolicy) (fuel : nat) :
  dryRun fuel policy <> TypeError /\
  ((exists out, dryRun fuel policy = Returned out) \/
   dryRun fuel policy = OutOfFuel).
Proof.
  split; [apply dryRun_no_TypeError|].
  destruct (dryRun_outcome policy fuel) as [(k & _ & _ & Hrun)|[_ Hrun]].
  - left. eauto.
  - right. exact Hrun.
Qed.

(** X2. [dryRun] loops forever exactly on the policies that never say stop
    along the simulation: every decision is a delay if and only if no bound
    on the loop lets [dryRun] return. *)
Theorem dryRun_diverges (policy : RetryPolicy) :
  (forall k, decision policy k <> None) <->
  (forall fuel, dryRun fuel policy = OutOfFuel).
Proof.
  split.
  - intros Hgo fuel. apply dryRun_out_of_fuel. intros j _. apply Hgo.
  - intros Hloop k Hk.
    destruct (first_stop_least policy k Hk) as (k' & _ & Hfs).
    pose proof (dryRun_first_stop policy k' Hfs k') as Hrun.
    rewrite Hloop in Hrun.
    destruct (decide (k' <= k')%nat); [discriminate|lia].
Qed.

Lemma dryRun_diverges_witness :
  dryRun 1000 (constantDelay 300) = OutOfFuel.
Proof.
  apply (proj1 (dryRun_diverges (constantDelay 300))).
  intros k. unfold decision, constantDelay. discriminate.
Defined.

(** X3. The policies without a limit retry without end: on
    [constantDelay d], on [exponentialBackoff b], and on their merge under
    a cap, [dryRun] never returns, whatever the bound on the loop. *)
Theorem unlimited_policies_diverge (d b m : Z) (fuel : nat) :
  dryRun fuel (constantDelay d) = OutOfFuel /\
  dryRun fuel (exponentialBackoff b) = OutOfFuel /\
  dryRun fuel (capDelay m (concat (exponentialBackoff b) (constantDelay d)))
    = OutOfFuel.
Proof.
  repeat split; apply dryRun_out_of_fuel; intros j _; discriminate.
Qed.

(** ** [limitRetries] in a dry run *)

(** X4. The dry run of [limitRetries n] alone: [n] retries with delay 0,
    numbered from 1, then the stop; for [n <= 0] the stop alone.  It takes
    the loop [n] rounds. *)
Theorem limitRetries_dryRun (n : Z) (fuel : nat) :
  dryRun fuel (limitRetries n) =
  if decide (Z.to_nat n <= fuel)%nat
  then Returned (immediateRetries (Z.to_nat n))
  else OutOfFuel.
Proof.
  assert (first_stop (limitRetries n) (Z.to_nat n)) as Hfs.
  { split.
    - rewrite decision_limitRetries.
      destruct (decide (Z.to_nat n <= Z.to_nat n)%nat); [reflexivity|lia].
    - intros j Hj. rewrite decision_limitRetries.
      destruct (decide (Z.to_nat n <= j)%nat); [lia|discriminate]. }
  rewrite (dryRun_first_stop _ _ Hfs).
  destruct (decide (Z.to_nat n <= fuel)%nat); [|reflexivity].
  f_equal. apply list_eq. intros i. unfold immediateRetries.
  destruct (lt_eq_lt_dec i (Z.to_nat n)) as [[Hi|Hi]|Hi].
  - rewrite simulated_lookup by lia. rewrite statusAt_succ.
    rewrite lookup_app_l by (rewrite length_fmap, length_seq; lia).
    rewrite list_lookup_fmap, lookup_seq_lt by lia.
    cbn [fmap option_fmap option_map]. rewrite decision_limitRetries.
    destruct (decide (Z.to_nat n <= i)%nat); [lia|reflexivity].
  - subst i. rewrite simulated_lookup by lia. rewrite statusAt_succ.
    rewrite lookup_app_r by (rewrite length_fmap, length_seq; lia).
    rewrite length_fmap, length_seq, Nat.sub_diag.
    rewrite decision_limitRetries.
    destruct (decide (Z.to_nat n <= Z.to_nat n)%nat); [reflexivity|lia].
  - rewrite lookup_ge_None_2 by (rewrite simulated_length; lia).
    rewrite lookup_ge_None_2; [reflexivity|].
    rewrite length_app, length_fmap, length_seq. simpl. lia.
Qed.

(** X5. Merging [limitRetries n] into any policy, whatever that policy
    reads of the status, makes the dry run finite: it stops at a decision
    no later than the [n]-th, returns once the loop is allowed [n] rounds,
    and the sequence has at most [n + 1] statuses. *)
Theorem limitRetries_bounds_dryRun (n : Z) (policy : RetryPolicy) :
  exists k out,
    (k <= Z.to_nat n)%nat /\
    first_stop (concat (limitRetries n) policy) k /\
    (forall fuel, (Z.to_nat n <= fuel)%nat ->
       dryRun fuel (concat (limitRetries n) policy) = Returned out) /\
    length out = S k.
Proof.
  assert (decision (concat (limitRetries n) policy) (Z.to_nat n) = None)
    as Hstop.
  { unfold decision, concat, limitRetries. cbv zeta.
    rewrite iterNumber_statusAt.
    destruct (policy _); [|reflexivity].
    destruct (Z.geb_spec (Z.of_N (N.of_nat (Z.to_nat n))) n);
      [reflexivity|lia]. }
  destruct (first_stop_least _ _ Hstop) as (k & Hk & Hfs).
  exists k, (simulated (concat (limitRetries n) policy) k).
  split; [exact Hk|]. split; [exact Hfs|]. split.
  - intros fuel Hfuel. rewrite (dryRun_first_stop _ _ Hfs).
    destruct (decide (k <= fuel)%nat); [reflexivity|lia].
  - apply simulated_length.
Qed.

Lemma limitRetries_bounds_dryRun_witness :
  exists out,
    dryRun 5 (concat (limitRetries 5) (constantDelay 300)) = Returned out.
Proof.
  destruct (limitRetries_bounds_dryRun 5 (constantDelay 300))
    as (k & out & _ & _ & Hrun & _).
  exists out. apply Hrun. simpl. lia.
Defined.

(** ** [capDelay] in a dry run *)



(** X7. For a policy that reads only [iterNumber], the dry run of the
    capped policy is the dry run of the policy with each recorded delay
    capped: the same outcome, the same number of statuses, the same
    [iterNumber]s, each delay [d] replaced by [min m d]. *)
Theorem capDelay_dryRun (m : Z) (policy : RetryPolicy) (fuel : nat) :
  memoryless policy ->
  dryRun fuel (capDelay m policy) =
  outcome_map (fmap (capStatus m)) (dryRun fuel policy).
Proof.
  intros Hp.
  destruct (dryRun_outcome policy fuel) as [(k & Hk & Hfs & Hrun)|[Hgo Hrun]];
    rewrite Hrun; cbn [outcome_map].
  - assert (first_stop (capDelay m policy) k) as Hfs'.
    { destruct Hfs as [Hstop Hgo]. split.
      - rewrite decision_capDelay, Hstop by exact Hp. reflexivity.
      - intros j Hj. rewrite decision_capDelay by exact Hp.
        specialize (Hgo j Hj). destruct (decision policy j);
          [discriminate|congruence]. }
    rewrite (dryRun_first_stop _ _ Hfs').
    destruct (decide (k <= fuel)%nat); [|lia].
    f_equal. apply list_eq. intros i. rewrite list_lookup_fmap.
    destruct (decide (i <= k)%nat) as [Hi|Hi].
    + rewrite !simulated_lookup by exact Hi. rewrite !statusAt_succ.
      rewrite decision_capDelay by exact Hp. reflexivity.
    + rewrite !lookup_ge_None_2 by (rewrite simulated_length; lia).
      reflexivity.
  - apply dryRun_out_of_fuel. intros j Hj.
    rewrite decision_capDelay by exact Hp. specialize (Hgo j Hj).
    destruct (decision policy j); [discriminate|congruence].
Qed.

Lemma capDelay_dryRun_witness :
  dryRun 5 (capDelay 500 (concat (limitRetries 3) (exponentialBackoff 200)))
  = Returned [ mkStatus 1 (Some 200); mkStatus 2 (Some 400);
               mkStatus 3 (Some 500); mkStatus 4 None ].
Proof.
  rewrite (capDelay_dryRun 500
             (concat (limitRetries 3) (exponentialBackoff 200)) 5).
  - reflexivity.
  - apply memoryless_concat.
    + apply memoryless_exponentialBackoff.
    + apply memoryless_limitRetries.
Defined.

(** X8. Caps compose and commute: capping at [n] and then at [m] is capping
    once at [min m n], in either order. *)
Theorem capDelay_compose (m n : Z) (p : RetryPolicy) (s : RetryStatus) :
  capDelay m (capDelay n p) s = capDelay (Z.min m n) p s /\
  capDelay m (capDelay n p) s = capDelay n (capDelay m p) s.
Proof.
  unfold capDelay. cbv zeta.
  destruct (p s); split; try reflexivity; f_equal; lia.
Qed.

(** X9. A cap distributes over a merge: capping the merge of two policies
    decides as the merge of the two capped policies, on every status. *)
Theorem capDelay_concat (m : Z) (a b : RetryPolicy) (s : RetryStatus) :
  capDelay m (concat b a) s = concat (capDelay m b) (capDelay m a) s.
Proof.
  unfold capDelay, concat. cbv zeta.
  destruct (a s), (b s); try reflexivity. f_equal. lia.
Qed.

(** ** Merging policies *)

(** X10. Merges of like policies: a policy merged with itself is that
    policy; two limits merge into the smaller limit; two constant delays
    merge into the larger delay. *)
Theorem concat_like_policies (p : RetryPolicy) (m n : Z) (s : RetryStatus) :
  concat p p s = p s /\
  concat (limitRetries m) (limitRetries n) s = limitRetries (Z.min m n) s /\
  concat (constantDelay m) (constantDelay n) s = constantDelay (Z.max m n) s.
Proof.
  unfold concat, limitRetries, constantDelay. cbv zeta. repeat split.
  - destruct (p s); [f_equal; lia|reflexivity].
  - destruct (Z.geb_spec (Z.of_N (iterNumber s)) n),
      (Z.geb_spec (Z.of_N (iterNumber s)) m),
      (Z.geb_spec (Z.of_N (iterNumber s)) (Z.min m n));
      try reflexivity; lia.
  - f_equal. lia.
Qed.

(** X11. The primitives read nothing of the status but [iterNumber]
    ([constantDelay] not even that), and [capDelay] and [concat] keep it
    so: no policy built from them depends on [previousDelay]. *)
Theorem policies_memoryless (d m n : Z) (a b : RetryPolicy) :
  memoryless (constantDelay d) /\
  memoryless (limitRetries n) /\
  memoryless (exponentialBackoff d) /\
  (memoryless a -> memoryless (capDelay m a)) /\
  (memoryless a -> memoryless b -> memoryless (concat b a)).
Proof.
  split; [apply memoryless_constantDelay|].
  split; [apply memoryless_limitRetries|].
  split; [apply memoryless_exponentialBackoff|].
  split; [apply memoryless_capDelay|apply memoryless_concat].
Qed.

Lemma policies_memoryless_witness :
  memoryless (capDelay 2000 (constantDelay 300)) /\
  memoryless (concat (limitRetries 5) (constantDelay 300)).
Proof.
  pose proof (policies_memoryless 300 2000 5 (constantDelay 300)
                (limitRetries 5)) as (Hc & Hl & _ & Hcap & Hcat).
  split; [exact (Hcap Hc) | exact (Hcat Hc Hl)].
Defined.

(** X12. For policies that read only [iterNumber], the dry run of a merge
    terminates exactly when the dry run of one of the two does: retries
    stop as soon as either policy says stop. *)
Theorem concat_terminates (a b : RetryPolicy) :
  memoryless a -> memoryless b ->
  (terminates (concat b a) <-> terminates a \/ terminates b).
Proof.
  intros Ha Hb. rewrite !terminates_iff_stops. split.
  - intros (n & Hn). rewrite decision_concat in Hn by assumption.
    destruct (decision a n) eqn:Ea; [|left; eauto].
    destruct (decision b n) eqn:Eb; [discriminate|right; eauto].
  - intros [(n & Hn)|(n & Hn)]; exists n;
      rewrite decision_concat, Hn by assumption;
      [reflexivity | destruct (decision a n); reflexivity].
Qed.

Lemma concat_terminates_witness :
  terminates (concat (limitRetries 5) (exponentialBackoff 200)).
Proof.
  apply (proj2 (concat_terminates (exponentialBackoff 200) (limitRetries 5)
                  (memoryless_exponentialBackoff 200)
                  (memoryless_limitRetries 5))).
  right. exists 5%nat. eexists. vm_compute. reflexivity.
Defined.

(** X13. For policies that read only [iterNumber] whose dry runs stop at
    decisions [ka] and [kb], the dry run of their merge stops at the earlier
    of the two and returns [min ka kb + 1] statuses. *)
Theorem concat_first_stop (a b : RetryPolicy) (ka kb : nat) :
  memoryless a -> memoryless b ->
  first_stop a ka -> first_stop b kb ->
  first_stop (concat b a) (Nat.min ka kb) /\
  exists out,
    dryRun (Nat.min ka kb) (concat b a) = Returned out /\
    length out = S (Nat.min ka kb).
Proof.
  intros Ha Hb [Hsa Hga] [Hsb Hgb].
  assert (first_stop (concat b a) (Nat.min ka kb)) as Hfs.
  { split.
    - rewrite decision_concat by assumption.
      destruct (Nat.min_spec ka kb) as [[_ ->]|[_ ->]].
      + rewrite Hsa. reflexivity.
      + rewrite Hsb. destruct (decision a kb); reflexivity.
    - intros j Hj. rewrite decision_concat by assumption.
      specialize (Hga j ltac:(lia)). specialize (Hgb j ltac:(lia)).
      destruct (decision a j), (decision b j); congruence. }
  split; [exact Hfs|].
  exists (simulated (concat b a) (Nat.min ka kb)).
  split; [|apply simulated_length].
  rewrite (dryRun_first_stop _ _ Hfs).
  destruct (decide (Nat.min ka kb <= Nat.min ka kb)%nat); [reflexivity|lia].
Qed.

Lemma concat_first_stop_witness :
  first_stop (concat (limitRetries 3) (limitRetries 5)) 3.
Proof.
  apply (concat_first_stop (limitRetries 5) (limitRetries 3) 5 3
           (memoryless_limitRetries 5) (memoryless_limitRetries 3)).
  - apply first_stopb_spec. vm_compute. reflexivity.
  - apply first_stopb_spec. vm_compute. reflexivity.
Defined.

(** X14. Merging [limitRetries n] into a policy adds no delay: below the
    limit the merge yields the policy's own delay, raised to 0 when it is
    negative, and stops when the policy stops; from the limit on it stops. *)
Theorem concat_limitRetries (n : Z) (p : RetryPolicy) (s : RetryStatus) :
  (Z.of_N (iterNumber s) < n ->
   concat (limitRetries n) p s = Z.max 0 <$> p s /\
   forall d, p s = Some d -> 0 <= d -> concat (limitRetries n) p s = Some d) /\
  (n <= Z.of_N (iterNumber s) -> concat (limitRetries n) p s = None).
Proof.
  unfold concat, limitRetries. cbv zeta.
  destruct (Z.geb_spec (Z.of_N (iterNumber s)) n) as [Hge|Hlt];
    split; intros H; try lia.
  - destruct (p s); reflexivity.
  - split.
    + destruct (p s); [|reflexivity]. cbn. f_equal. lia.
    + intros d -> Hd. f_equal. lia.
Qed.

Lemma concat_limitRetries_witness :
  concat (limitRetries 5) (constantDelay 300) (mkStatus 4 (Some 300))
    = Some 300 /\
  concat (limitRetries 5) (constantDelay (-7)) (mkStatus 4 (Some 0))
    = Some 0 /\
  concat (limitRetries 5) (constantDelay 300) (mkStatus 5 (Some 300)) = None.
Proof.
  split; [|split].
  - destruct (proj1 (concat_limitRetries 5 (constantDelay 300)
                       (mkStatus 4 (Some 300)))) as [_ H]; [simpl; lia|].
    apply H; [reflexivity|lia].
  - destruct (proj1 (concat_limitRetries 5 (constantDelay (-7))
                       (mkStatus 4 (Some 0)))) as [H _]; [simpl; lia|].
    exact H.
  - apply (proj2 (concat_limitRetries 5 (constantDelay 300)
                    (mkStatus 5 (Some 300)))). simpl. lia.
Defined.

(** ** The sequence of a dry run *)

(** X15. The sequence [dryRun] returns keeps all intermediate results: its
    first element is the policy applied to the start status, every later
    element is the policy applied to the element before it, and that element
    carried a delay. *)
Theorem dryRun_chain (policy : RetryPolicy) (fuel : nat)
    (out : list RetryStatus) :
  dryRun fuel policy = Returned out ->
  out !! 0%nat = Some (applyPolicy policy startStatus) /\
  forall i y, out !! S i = Some y ->
    exists x, out !! i = Some x /\ y = applyPolicy policy x /\
              previousDelay x <> None.
Proof.
  intros (k & _ & [_ Hgo] & ->)%dryRun_returned. split.
  - rewrite simulated_lookup by lia. reflexivity.
  - intros i y [Hi ->]%simulated_lookup_inv.
    exists (statusAt policy (S i)). split; [|split].
    + apply simulated_lookup. lia.
    + reflexivity.
    + rewrite previousDelay_statusAt. apply Hgo. lia.
Qed.

Lemma dryRun_chain_witness :
  exists x, [mkStatus 1 (Some 7); mkStatus 2 None] !! 0%nat = Some x /\
            mkStatus 2 None =
            applyPolicy (concat (limitRetries 1) (constantDelay 7)) x /\
            previousDelay x <> None.
Proof.
  exact (proj2 (dryRun_chain (concat (limitRetries 1) (constantDelay 7)) 3
                  [mkStatus 1 (Some 7); mkStatus 2 None] eq_refl)
           0%nat (mkStatus 2 None) eq_refl).
Defined.

(** X16. The delays of [exponentialBackoff d], as the code computes them on
    doubles, never shrink for a base delay [d > 0]: a status with a larger
    [iterNumber] gets a delay at least as long ([Infinity] included), and no
    delay is below [d].  For [d = 0] this holds as long as [iterNumber]
    stays below 1024, where every delay is 0; from 1024 on the delay is
    [NaN], which compares with nothing. *)
Theorem exponentialBackoff_double_monotone (d : Z) (s s' : RetryStatus) :
  0 <= d -> 0 < d \/ (iterNumber s' < 1024)%N ->
  (iterNumber s <= iterNumber s')%N ->
  exists x y,
    exponentialBackoff_double d s = Some x /\
    exponentialBackoff_double d s' = Some y /\
    Number_le (Finite d) x = true /\ Number_le x y = true.
Proof.
  intros Hd Hrange Hle.
  rewrite !exponentialBackoff_double_cases by exact Hd.
  do 2 eexists. split; [reflexivity|]. split; [reflexivity|].
  assert (0 < 2 ^ Z.of_N (iterNumber s)) as H1
    by (apply Z.pow_pos_nonneg; lia).
  assert (2 ^ Z.of_N (iterNumber s) <= 2 ^ Z.of_N (iterNumber s')) as H2
    by (apply Z.pow_le_mono_r; lia).
  assert (d <= d * 2 ^ Z.of_N (iterNumber s)) as H3 by nia.
  assert (d * 2 ^ Z.of_N (iterNumber s) <= d * 2 ^ Z.of_N (iterNumber s'))
    as H4 by nia.
  destruct (N.ltb_spec (iterNumber s) 1024) as [Hn|Hn];
    destruct (N.ltb_spec (iterNumber s') 1024) as [Hn'|Hn'];
    destruct (Z.leb_spec double_limit (d * 2 ^ Z.of_N (iterNumber s)));
    destruct (Z.leb_spec double_limit (d * 2 ^ Z.of_N (iterNumber s')));
    destruct (Z.eqb_spec d 0);
    cbn [Number_le]; split; try reflexivity; try lia;
    apply Z.leb_le; lia.
Qed.

Lemma exponentialBackoff_double_monotone_witness :
  exists x y,
    exponentialBackoff_double 200 (mkStatus 4 (Some 1600)) = Some x /\
    exponentialBackoff_double 200 (mkStatus 1024 (Some 0)) = Some y /\
    Number_le (Finite 200) x = true /\ Number_le x y = true.
Proof.
  apply (exponentialBackoff_double_monotone 200);
    [lia | left; lia | vm_compute; discriminate].
Defined.

(** For the base delay 0 the bound 1024 is needed: past it the delay is
    [NaN], and neither comparison holds. *)
Lemma exponentialBackoff_double_zero_NaN :
  exponentialBackoff_double 0 (mkStatus 1023 (Some 0)) = Some (Finite 0) /\
  exponentialBackoff_double 0 (mkStatus 1024 (Some 0)) = Some NaN /\
  Number_le (Finite 0) NaN = false.
Proof. repeat split; vm_compute; reflexivity. Qed.
